(** * MongoObservable.Collection: the promise/observable bridge

    A shallow embedding of [src/ObservableCollection.ts].  The facade wraps a
    Meteor [Mongo.Collection]; its four mutating methods are [async]
    functions that create a per-call [observers] array and an rxjs
    [Observable] over it, [await] the host mutation, notify the array with
    [forEach], and only then [return obs].

    One facade call is modelled as a record [Call] holding everything the
    call owns (the [observers] array, the promise handed to the caller, the
    host invocations made) together with what the rxjs subscribers have
    received so far.  The environment (host settlement, caller subscribing
    and unsubscribing) drives the call through [step]. *)

From Stdlib Require Import List ZArith Bool String Arith Lia.
Import ListNotations.

Set Implicit Arguments.
Set Warnings "-register-all".

(** ** JavaScript values *)

Inductive Value : Type :=
| VUndefined
| VNull
| VBool (b : bool)
| VNum (n : Z)
| VStr (s : string)
| VObj (fields : list (string * Value))
| VPromise (p : Settlement)
with Settlement : Type :=
| Resolves (v : Value)
| Rejects (e : Value).

(** ToBoolean, as used by the conditional [error ? ... : ...]. *)
Definition truthy (v : Value) : bool :=
  match v with
  | VUndefined | VNull => false
  | VBool b => b
  | VNum n => negb (Z.eqb n 0)
  | VStr s => negb (String.eqb s EmptyString)
  | VObj _ | VPromise _ => true
  end.


Definition isNumber (v : Value) : bool :=
  match v with VNum _ => true | _ => false end.


(** ** The host store, [Mongo.Collection]

    External collaborator.  Its query engine is out of scope and is kept as
    two uninterpreted functions of the argument list. *)
Module Mongo.

Definition Doc := list (string * Value).

Record Cursor : Type := { cursorQuery : list Value }.

Record Collection : Type := {
  firstMatch : list Value -> option Doc;
  matching : list Value -> Cursor
}.

(** The host methods the facade awaits. *)
Inductive Method : Type := insertAsync | removeAsync | updateAsync | upsertAsync.

(** The first matching document, or [undefined]. *)
Definition firstOrUndefined (c : Collection) (args : list Value) : Value :=
  match firstMatch c args with
  | Some d => VObj d
  | None => VUndefined
  end.

(** Modelled from the spec: the host's [findOneAsync] is not part of the
    sources; section 6 lists it among the methods that "each returns a
    deferred result or rejects with an error object".  It resolves with
    the first matching document, or [undefined]. *)
Definition findOneAsync (c : Collection) (args : list Value) : Value :=
  VPromise (Resolves (firstOrUndefined c args)).

Definition find (c : Collection) (args : list Value) : Cursor := matching c args.



End Mongo.

(** [ObservableCursor.create] lives in ./ObservableCursor, outside the
    sources at hand; the call is kept symbolic. *)
Inductive ObservableCursor : Type :=
| ObservableCursor_create (cursor : Mongo.Cursor).

(** ** rxjs subscribers *)

(** An rxjs [Subscriber] object, by identity. *)
Abbreviation Subscriber := nat (only parsing).

(** What a subscriber's callbacks are invoked with. *)
Inductive Notification : Type :=
| Next (v : Value)
| Error (e : Value)
| Complete.

(** What the caller of a mutating method holds. *)
Inductive Observable : Type := CreatedObservable.

Inductive Promise : Type :=
| Pending
| Fulfilled (obs : Observable)
| Rejected (e : Value).

Record HostCall : Type := {
  callee : Mongo.Collection;
  method : Mongo.Method;
  arguments : list Value
}.

(** ** One facade call *)
Record Call : Type := mkCall {
  hostCalls : list HostCall;                    (* host mutations launched *)
  observers : list Subscriber;                  (* the [observers] array *)
  closed : list Subscriber;                     (* subscribers that are stopped *)
  received : list (Subscriber * Notification);  (* callbacks invoked, in order *)
  ret : Promise;                                (* the promise the caller holds *)
  fresh : Subscriber                            (* next subscriber identity *)
}.

Definition isClosed (o : Subscriber) (c : Call) : bool :=
  existsb (Nat.eqb o) (closed c).

Definition receivedBy (o : Subscriber) (c : Call) : list Notification :=
  map snd (filter (fun p => Nat.eqb (fst p) o) (received c)).

(** Modelled from the spec: [removeObserver] is imported from ./utils, which
    is not part of the sources at hand.  Section 4.2: the unsubscribe closure
    "removes cb from R; removal is idempotent and safe even if R has already
    been drained"; section 2: "idempotent-remove-by-identity". *)
Fixpoint removeObserver (observers : list Subscriber) (observer : Subscriber)
  : list Subscriber :=
  match observers with
  | [] => []
  | o :: rest =>
      if Nat.eqb o observer then rest else o :: removeObserver rest observer
  end.

Module Rx.

(** The teardown returned by the subscribe function of [_createObservable]:
    [() => { removeObserver(observers, observer); }]. *)
Definition teardown (observer : Subscriber) (c : Call) : Call :=
  mkCall (hostCalls c) (removeObserver (observers c) observer) (closed c)
         (received c) (ret c) (fresh c).

(** [Subscription.unsubscribe]: runs the teardown once. *)
Definition unsubscribe (o : Subscriber) (c : Call) : Call :=
  if isClosed o c then c
  else teardown o (mkCall (hostCalls c) (observers c) (o :: closed c)
                          (received c) (ret c) (fresh c)).

Definition deliver (o : Subscriber) (n : Notification) (c : Call) : Call :=
  mkCall (hostCalls c) (observers c) (closed c)
         (received c ++ [(o, n)]) (ret c) (fresh c).

(** [Subscriber.next]: dropped once the subscriber is stopped. *)
Definition next (o : Subscriber) (v : Value) (c : Call) : Call :=
  if isClosed o c then c else deliver o (Next v) c.

(** [Subscriber.error] and [Subscriber.complete]: dropped once stopped;
    otherwise the callback runs and the subscription is torn down. *)
Definition error (o : Subscriber) (e : Value) (c : Call) : Call :=
  if isClosed o c then c else unsubscribe o (deliver o (Error e) c).

Definition complete (o : Subscriber) (c : Call) : Call :=
  if isClosed o c then c else unsubscribe o (deliver o Complete c).

End Rx.

(** [Array.prototype.forEach] over the live [observers] array: the length is
    read once, and each index is visited only if it is still present. *)
Fixpoint forEachFrom (n k : nat) (f : Subscriber -> Call -> Call) (c : Call) : Call :=
  match n with
  | O => c
  | S n' =>
      forEachFrom n' (S k) f
        match nth_error (observers c) k with
        | Some observer => f observer c
        | None => c
        end
  end.

Definition forEach (f : Subscriber -> Call -> Call) (c : Call) : Call :=
  forEachFrom (List.length (observers c)) 0 f c.

Module MongoObservable.

Record Collection : Type := { _collection : Mongo.Collection }.

(** [_createObservable(observers)] (lines 315-322) is [Observable.create] of
    a subscribe function over the array of the call; this is that function,
    run on a subscriber: [observers.push(observer)].  The teardown it
    returns is [Rx.teardown observer]. *)
Definition _createObservable (observer : Subscriber) (c : Call) : Call :=
  mkCall (hostCalls c) (observers c ++ [observer]) (closed c)
         (received c) (ret c) (fresh c).

(** [obs.subscribe(...)]: rxjs builds a new [Subscriber] and runs the
    subscribe function on it. *)
Definition subscribe (obs : Observable) (c : Call) : Call :=
  _createObservable (fresh c)
    (mkCall (hostCalls c) (observers c) (closed c)
            (received c) (ret c) (S (fresh c))).

(** The four mutating methods (lines 128-148, 159-179, 193-217, 232-256)
    have one body and differ in the host method they await.

    The synchronous part, up to the [await]: [observers = []], [obs]
    created, the host method invoked.  The caller is left holding the
    pending promise of the [async] function. *)
Definition suspended (this : Collection) (m : Mongo.Method) (args : list Value)
  : Call :=
  mkCall [Build_HostCall (_collection this) m args] [] [] [] Pending 0.

(** The body of the [forEach] callback:
    [error ? observer.error(error) : observer.next(result); observer.complete();] *)
Definition notify (result error : Value) (observer : Subscriber) (c : Call) : Call :=
  Rx.complete observer
    (if truthy error then Rx.error observer error c
     else Rx.next observer result c).

(** The rest of the body, run when the awaited host promise settles:
    [try]/[catch] fills [result] or [error] (the other stays [undefined]),
    the array is notified, and [return obs] fulfils the promise. *)
Definition resume (s : Settlement) (c : Call) : Call :=
  let (result, error) :=
    match s with
    | Resolves v => (v, VUndefined)
    | Rejects e => (VUndefined, e)
    end in
  let c' := forEach (notify result error) c in
  mkCall (hostCalls c') (observers c') (closed c')
         (received c') (Fulfilled CreatedObservable) (fresh c').

Definition insert (this : Collection) (doc : Value) : Call :=
  suspended this Mongo.insertAsync [doc].

Definition remove (this : Collection) (selector : Value) : Call :=
  suspended this Mongo.removeAsync [selector].

Definition update (this : Collection) (selector modifier options : Value) : Call :=
  suspended this Mongo.updateAsync [selector; modifier; options].

Definition upsert (this : Collection) (selector modifier options : Value) : Call :=
  suspended this Mongo.upsertAsync [selector; modifier; options].

(** [find] and [findOne] forward their [arguments] to the host (lines
    278-290 and 302-312). *)
Definition find (this : Collection) (args : list Value) : ObservableCursor :=
  ObservableCursor_create (Mongo.find (_collection this) args).

Definition findOne (this : Collection) (args : list Value) : Value :=
  Mongo.findOneAsync (_collection this) args.

(** The class fields [public insertAsync = this.insert;] ... (lines 42-47). *)
Definition insertAsync := insert.
Definition removeAsync := remove.
Definition updateAsync := update.
Definition upsertAsync := upsert.
Definition findAsync := find.
Definition findOneAsync := findOne.

End MongoObservable.

Import MongoObservable.

(** ** Mutating calls and their environment *)

Inductive Mutation : Type :=
| Insert (doc : Value)
| Remove (selector : Value)
| Update (selector modifier options : Value)
| Upsert (selector modifier options : Value).

Definition invoke (this : Collection) (op : Mutation) : Call :=
  match op with
  | Insert doc => insert this doc
  | Remove selector => remove this selector
  | Update selector modifier options => update this selector modifier options
  | Upsert selector modifier options => upsert this selector modifier options
  end.

Inductive Event : Type :=
| HostSettles (s : Settlement)        (* the awaited host promise settles *)
| Subscribes                          (* the caller subscribes to the stream *)
| Unsubscribes (o : Subscriber).      (* the caller unsubscribes subscriber [o] *)

(** One move of the environment.  [None]: the move is not available (the
    host promise settles once; subscribing needs the [Observable], which the
    caller gets from the fulfilled promise; unsubscribing needs a
    subscription made earlier). *)
Definition step (c : Call) (e : Event) : option Call :=
  match e with
  | HostSettles s =>
      match ret c with
      | Pending => Some (resume s c)
      | _ => None
      end
  | Subscribes =>
      match ret c with
      | Fulfilled obs => Some (subscribe obs c)
      | _ => None
      end
  | Unsubscribes o =>
      if Nat.ltb o (fresh c) then Some (Rx.unsubscribe o c) else None
  end.

Fixpoint run (c : Call) (events : list Event) : option Call :=
  match events with
  | [] => Some c
  | e :: rest =>
      match step c e with
      | Some c' => run c' rest
      | None => None
      end
  end.

(** ** Notions used in the statements and proofs *)

Definition settlementValues (s : Settlement) : Value * Value :=
  match s with
  | Resolves v => (v, VUndefined)
  | Rejects e => (VUndefined, e)
  end.

(** The components an rxjs operation never touches. *)
Definition sameCall (c c' : Call) : Prop :=
  hostCalls c' = hostCalls c /\ ret c' = ret c /\ fresh c' = fresh c.

(** A stopped subscriber stays stopped and hears nothing more. *)
Definition muted (o : Subscriber) (c c' : Call) : Prop :=
  isClosed o c' = true /\ receivedBy o c' = receivedBy o c.

(** The notifications a settlement with [result] and [error] may produce. *)
Definition outcomeOf (result error : Value) (n : Notification) : Prop :=
  if truthy error then n = Error error else n = Next result \/ n = Complete.

Definition appended (Q : Notification -> Prop) (c c' : Call) : Prop :=
  exists l, received c' = received c ++ l /\ Forall (fun p => Q (snd p)) l.

Record Reached (c : Call) : Prop := {
  reached_quiet : received c = [];
  reached_pending : ret c = Pending -> observers c = [];
  reached_unborn : ret c = Pending -> fresh c = 0;
  reached_kept : forall e, ret c <> Rejected e;
  reached_observers : Forall (fun o => o < fresh c) (observers c);
  reached_closed : Forall (fun o => o < fresh c) (closed c);
  reached_host : List.length (hostCalls c) = 1
}.



(** ** A concrete collection, for the examples *)

Definition emptyStore : Mongo.Collection :=
  {| Mongo.firstMatch := fun _ => None;
     Mongo.matching := fun args => {| Mongo.cursorQuery := args |} |}.

Definition tasks : Collection := {| _collection := emptyStore |}.

Definition oneTask : Mongo.Doc := [("_id"%string, VStr "a1"); ("v"%string, VNum 1)].

Definition taskStore : Mongo.Collection :=
  {| Mongo.firstMatch := fun _ => Some oneTask;
     Mongo.matching := fun args => {| Mongo.cursorQuery := args |} |}.

(** ** Construction of the facade

    [new Mongo.Collection(name, options)] is the host's constructor; it is
    a parameter of the model. *)

Inductive NameOrExisting : Type :=
| Named (name : Value)
| Existing (existing : Mongo.Collection).

(** The constructor (lines 59-67): an instance of [Mongo.Collection] is
    wrapped as it is, anything else is given to the host's constructor
    together with [options]. *)
Definition constructor (newCollection : Value -> Value -> Mongo.Collection)
           (nameOrExisting : NameOrExisting) (options : Value) : Collection :=
  match nameOrExisting with
  | Existing existing => {| _collection := existing |}
  | Named name => {| _collection := newCollection name options |}
  end.

(** [fromExisting(collection)] (lines 29-31):
    [new MongoObservable.Collection(collection)], without options. *)
Definition fromExisting (newCollection : Value -> Value -> Mongo.Collection)
           (collection : Mongo.Collection) : Collection :=
  constructor newCollection (Existing collection) VUndefined.

(** The getter [collection] (lines 73-75). *)
Definition collection (this : Collection) : Mongo.Collection := _collection this.

(** What one subscriber is handed by a settlement that reaches it. *)
Definition outcome (result error : Value) : list Notification :=
  if truthy error then [Error error] else [Next result; Complete].



(** * Proofs *)

(** ** Basic facts about the rxjs layer *)

Lemma receivedBy_deliver (o o' : Subscriber) (n : Notification) (c : Call) :
  receivedBy o (Rx.deliver o' n c)
  = receivedBy o c ++ (if Nat.eqb o' o then [n] else []).
Proof.
  unfold receivedBy, Rx.deliver; simpl.
  rewrite filter_app, map_app; simpl.
  destruct (Nat.eqb o' o); reflexivity.
Qed.

Lemma sameCall_refl (c : Call) : sameCall c c.
Proof. repeat split. Qed.

Lemma sameCall_trans (a b c : Call) : sameCall a b -> sameCall b c -> sameCall a c.
Proof.
  intros (H1 & H2 & H3) (H4 & H5 & H6); repeat split; congruence.
Qed.

Lemma unsubscribe_same (o : Subscriber) (c : Call) : sameCall c (Rx.unsubscribe o c).
Proof.
  unfold Rx.unsubscribe; destruct (isClosed o c); repeat split.
Qed.

Lemma next_same (o : Subscriber) (v : Value) (c : Call) : sameCall c (Rx.next o v c).
Proof. unfold Rx.next; destruct (isClosed o c); repeat split. Qed.

Lemma error_same (o : Subscriber) (e : Value) (c : Call) : sameCall c (Rx.error o e c).
Proof.
  unfold Rx.error; destruct (isClosed o c); [apply sameCall_refl|].
  eapply sameCall_trans; [|apply unsubscribe_same]; repeat split.
Qed.

Lemma complete_same (o : Subscriber) (c : Call) : sameCall c (Rx.complete o c).
Proof.
  unfold Rx.complete; destruct (isClosed o c); [apply sameCall_refl|].
  eapply sameCall_trans; [|apply unsubscribe_same]; repeat split.
Qed.

Lemma notify_same (r e : Value) (o : Subscriber) (c : Call) :
  sameCall c (notify r e o c).
Proof.
  unfold notify; eapply sameCall_trans; [|apply complete_same].
  destruct (truthy e); [apply error_same | apply next_same].
Qed.

Lemma muted_trans (o : Subscriber) (a b c : Call) :
  muted o a b -> muted o b c -> muted o a c.
Proof. intros [H1 H2] [H3 H4]; split; congruence. Qed.

Lemma unsubscribe_closes (o : Subscriber) (c : Call) :
  isClosed o (Rx.unsubscribe o c) = true
  /\ received (Rx.unsubscribe o c) = received c.
Proof.
  unfold Rx.unsubscribe; destruct (isClosed o c) eqn:E; [auto|].
  unfold Rx.teardown, isClosed; simpl; rewrite Nat.eqb_refl; auto.
Qed.

Lemma unsubscribe_muted (o o' : Subscriber) (c : Call) :
  isClosed o c = true -> muted o c (Rx.unsubscribe o' c).
Proof.
  intros H; unfold Rx.unsubscribe; destruct (isClosed o' c); [split; auto|].
  split; [|reflexivity].
  unfold Rx.teardown, isClosed in *; simpl; rewrite H; apply orb_true_r.
Qed.

Lemma deliver_muted (o o' : Subscriber) (n : Notification) (c : Call) :
  isClosed o c = true -> isClosed o' c = false ->
  muted o c (Rx.deliver o' n c).
Proof.
  intros H H'; split; [exact H|].
  rewrite receivedBy_deliver.
  destruct (Nat.eqb o' o) eqn:E; [|apply app_nil_r].
  apply Nat.eqb_eq in E; subst; congruence.
Qed.

Lemma notify_muted (r e : Value) (o o' : Subscriber) (c : Call) :
  isClosed o c = true -> muted o c (notify r e o' c).
Proof.
  intros H.
  assert (Hstep : forall n c1, isClosed o c1 = true ->
            muted o c1 (if isClosed o' c1 then c1
                        else Rx.unsubscribe o' (Rx.deliver o' n c1))).
  { intros n c1 H1; destruct (isClosed o' c1) eqn:E; [split; auto|].
    eapply muted_trans; [apply deliver_muted; eassumption|].
    apply unsubscribe_muted; exact H1. }
  unfold notify.
  assert (H1 : muted o c (if truthy e then Rx.error o' e c else Rx.next o' r c)).
  { destruct (truthy e); [apply Hstep; exact H|].
    unfold Rx.next; destruct (isClosed o' c) eqn:E; [split; auto|].
    apply deliver_muted; assumption. }
  eapply muted_trans; [exact H1|].
  apply Hstep, H1.
Qed.

(** ** Basic facts about [forEach] *)

Lemma forEachFrom_invariant (P : Call -> Prop) (f : Subscriber -> Call -> Call) :
  (forall o c, P c -> P (f o c)) ->
  forall n k c, P c -> P (forEachFrom n k f c).
Proof.
  intros Hf n; induction n as [|n IH]; intros k c Hc; simpl; [exact Hc|].
  apply IH; destruct (nth_error (observers c) k); auto.
Qed.

Lemma forEach_empty (f : Subscriber -> Call -> Call) (c : Call) :
  observers c = [] -> forEach f c = c.
Proof. intros H; unfold forEach; rewrite H; reflexivity. Qed.

Lemma forEach_notify_same (r e : Value) (c : Call) :
  sameCall c (forEach (notify r e) c).
Proof.
  unfold forEach.
  apply (forEachFrom_invariant (sameCall c)); [|apply sameCall_refl].
  intros o c' H; eapply sameCall_trans; [exact H | apply notify_same].
Qed.

Lemma forEach_notify_muted (r e : Value) (o : Subscriber) (c : Call) :
  isClosed o c = true -> muted o c (forEach (notify r e) c).
Proof.
  intros H; unfold forEach.
  apply (forEachFrom_invariant (muted o c)); [|split; auto].
  intros o' c' H'; eapply muted_trans; [exact H'|].
  apply notify_muted, H'.
Qed.

Lemma resume_unfold (s : Settlement) (c : Call) :
  resume s c =
  let c' := forEach (notify (fst (settlementValues s)) (snd (settlementValues s))) c in
  mkCall (hostCalls c') (observers c') (closed c') (received c')
         (Fulfilled CreatedObservable) (fresh c').
Proof. destruct s; reflexivity. Qed.

Lemma resume_empty (s : Settlement) (c : Call) :
  observers c = [] ->
  resume s c = mkCall (hostCalls c) [] (closed c) (received c)
                      (Fulfilled CreatedObservable) (fresh c).
Proof.
  intros H; rewrite resume_unfold; cbv zeta.
  rewrite (forEach_empty _ c H), H; reflexivity.
Qed.

(** ** Basic facts about [removeObserver] *)

Lemma removeObserver_Forall (P : Subscriber -> Prop) (l : list Subscriber) (o : Subscriber) :
  Forall P l -> Forall P (removeObserver l o).
Proof.
  induction 1 as [|x l Hx Hl IH]; simpl; [constructor|].
  destruct (Nat.eqb x o); [exact Hl | constructor; assumption].
Qed.

Lemma removeObserver_absent (l : list Subscriber) (o : Subscriber) :
  ~ In o l -> removeObserver l o = l.
Proof.
  induction l as [|x l IH]; simpl; intros H; [reflexivity|].
  destruct (Nat.eqb x o) eqn:E.
  - apply Nat.eqb_eq in E; subst; tauto.
  - f_equal; apply IH; tauto.
Qed.

Lemma removeObserver_pushed (l : list Subscriber) (o : Subscriber) :
  ~ In o l -> removeObserver (l ++ [o]) o = l.
Proof.
  induction l as [|x l IH]; simpl; intros H.
  - rewrite Nat.eqb_refl; reflexivity.
  - destruct (Nat.eqb x o) eqn:E.
    + apply Nat.eqb_eq in E; subst; tauto.
    + f_equal; apply IH; tauto.
Qed.


(** ** What holds of every state a facade call can be in *)

Lemma invoke_suspended (this : Collection) (op : Mutation) :
  exists m args, invoke this op = suspended this m args.
Proof. destruct op; simpl; unfold insert, remove, update, upsert; eauto. Qed.

Lemma invoke_Reached (this : Collection) (op : Mutation) : Reached (invoke this op).
Proof.
  destruct (invoke_suspended this op) as (m & args & ->).
  constructor; simpl; auto; discriminate.
Qed.

Lemma Forall_lt_S (l : list Subscriber) (n : nat) :
  Forall (fun o => o < n) l -> Forall (fun o => o < S n) l.
Proof. apply Forall_impl; intros; lia. Qed.

Lemma below_fresh_absent (l : list Subscriber) (n : nat) :
  Forall (fun o => o < n) l -> ~ In n l /\ existsb (Nat.eqb n) l = false.
Proof.
  intros H; rewrite Forall_forall in H; split.
  - intros Hin; specialize (H n Hin); lia.
  - destruct (existsb (Nat.eqb n) l) eqn:E; [|reflexivity].
    apply existsb_exists in E; destruct E as (x & Hin & Hx).
    apply Nat.eqb_eq in Hx; subst x; specialize (H n Hin); lia.
Qed.

Lemma step_Reached (c c' : Call) (e : Event) :
  Reached c -> step c e = Some c' -> Reached c'.
Proof.
  intros [Hq Hp Hu Hk Ho Hc Hh] Hstep; destruct e as [s| |o]; simpl in Hstep.
  - destruct (ret c) eqn:E; try discriminate.
    injection Hstep as <-; rewrite (resume_empty s c (Hp eq_refl)).
    constructor; simpl; auto; discriminate.
  - destruct (ret c) eqn:E; try discriminate.
    injection Hstep as <-; unfold subscribe, _createObservable.
    constructor; simpl; auto using Forall_lt_S.
    + rewrite E; discriminate.
    + rewrite E; discriminate.
    + rewrite E; discriminate.
    + apply Forall_app; split; [apply Forall_lt_S, Ho|].
      constructor; [lia | constructor].
  - destruct (Nat.ltb o (fresh c)) eqn:E; try discriminate.
    injection Hstep as <-; apply Nat.ltb_lt in E.
    unfold Rx.unsubscribe; destruct (isClosed o c); [constructor; assumption|].
    constructor; simpl; auto.
    + intros H; rewrite (Hp H); reflexivity.
    + apply removeObserver_Forall, Ho.
Qed.

Lemma run_Reached (events : list Event) :
  forall c c', Reached c -> run c events = Some c' -> Reached c'.
Proof.
  induction events as [|e events IH]; simpl; intros c c' Hc Hrun.
  - injection Hrun as <-; exact Hc.
  - destruct (step c e) as [c1|] eqn:E; [|discriminate].
    eapply IH; [eapply step_Reached; eassumption | exact Hrun].
Qed.

Lemma run_app (c : Call) (xs ys : list Event) :
  run c (xs ++ ys) =
  match run c xs with
  | Some c' => run c' ys
  | None => None
  end.
Proof.
  revert c; induction xs as [|e xs IH]; intros c; simpl; [reflexivity|].
  destruct (step c e); [apply IH | reflexivity].
Qed.

(** No notification is ever delivered on the stream of a mutating call. *)
Lemma run_quiet (this : Collection) (op : Mutation) (events : list Event) (c : Call) :
  run (invoke this op) events = Some c -> received c = [].
Proof.
  intros H; apply reached_quiet.
  eapply run_Reached; [apply invoke_Reached | exact H].
Qed.

(** The promise of a mutating call is fulfilled only by the host settling. *)
Lemma run_fulfilled_settled (this : Collection) (op : Mutation) (events : list Event)
      (c : Call) (obs : Observable) :
  run (invoke this op) events = Some c -> ret c = Fulfilled obs ->
  exists s rest, events = HostSettles s :: rest.
Proof.
  destruct (invoke_suspended this op) as (m & args & ->).
  destruct events as [|[s| |o] rest]; simpl.
  - intros [= <-]; discriminate.
  - eauto.
  - discriminate.
  - discriminate.
Qed.

(** ** Stepping preserves what a stopped subscriber has received *)

Lemma step_sameHost (c c' : Call) (e : Event) :
  step c e = Some c' -> hostCalls c' = hostCalls c /\ fresh c <= fresh c'.
Proof.
  destruct e as [s| |o]; simpl.
  - destruct (ret c); try discriminate; intros [= <-].
    rewrite resume_unfold; cbv zeta; simpl.
    destruct (forEach_notify_same (fst (settlementValues s))
                (snd (settlementValues s)) c) as (H1 & _ & H3).
    split; [exact H1 | lia].
  - destruct (ret c); try discriminate; intros [= <-]; simpl; split; [reflexivity | lia].
  - destruct (Nat.ltb o (fresh c)); try discriminate; intros [= <-].
    destruct (unsubscribe_same o c) as (H1 & _ & H3); split; [exact H1 | lia].
Qed.

Lemma step_muted (o : Subscriber) (c c' : Call) (e : Event) :
  isClosed o c = true -> step c e = Some c' -> muted o c c'.
Proof.
  intros H; destruct e as [s| |o']; simpl.
  - destruct (ret c); try discriminate; intros [= <-].
    rewrite resume_unfold; cbv zeta.
    exact (forEach_notify_muted (fst (settlementValues s))
             (snd (settlementValues s)) o c H).
  - destruct (ret c); try discriminate; intros [= <-]; split; [exact H | reflexivity].
  - destruct (Nat.ltb o' (fresh c)); try discriminate; intros [= <-].
    apply unsubscribe_muted, H.
Qed.

Lemma run_muted (o : Subscriber) (events : list Event) :
  forall c c', isClosed o c = true -> run c events = Some c' ->
               muted o c c' /\ hostCalls c' = hostCalls c.
Proof.
  induction events as [|e events IH]; simpl; intros c c' H Hrun.
  - injection Hrun as <-; repeat split; auto.
  - destruct (step c e) as [c1|] eqn:E; [|discriminate].
    pose proof (step_muted o c e H E) as Hm.
    destruct (IH c1 c' (proj1 Hm) Hrun) as [Hm' Hh].
    split; [eapply muted_trans; eassumption|].
    rewrite Hh; apply (step_sameHost c e E).
Qed.

(** ** What one settlement delivers, whatever the array holds *)

Lemma appended_refl (Q : Notification -> Prop) (c : Call) : appended Q c c.
Proof. exists []; split; [symmetry; apply app_nil_r | constructor]. Qed.

Lemma appended_trans (Q : Notification -> Prop) (a b c : Call) :
  appended Q a b -> appended Q b c -> appended Q a c.
Proof.
  intros (l1 & E1 & F1) (l2 & E2 & F2); exists (l1 ++ l2); split.
  - rewrite E2, E1, app_assoc; reflexivity.
  - apply Forall_app; split; assumption.
Qed.

Lemma terminal_appended (Q : Notification -> Prop) (o : Subscriber)
      (n : Notification) (c : Call) :
  Q n -> appended Q c (Rx.unsubscribe o (Rx.deliver o n c)).
Proof.
  intros H; exists [(o, n)]; split.
  - rewrite (proj2 (unsubscribe_closes o _)); reflexivity.
  - constructor; [exact H | constructor].
Qed.

Lemma notify_appended (r e : Value) (o : Subscriber) (c : Call) :
  appended (outcomeOf r e) c (notify r e o c).
Proof.
  unfold notify, outcomeOf, Rx.error, Rx.next, Rx.complete.
  destruct (truthy e) eqn:T, (isClosed o c) eqn:E; rewrite ?E.
  - apply appended_refl.
  - rewrite (proj1 (unsubscribe_closes o _)).
    apply terminal_appended; reflexivity.
  - apply appended_refl.
  - eapply appended_trans with (b := Rx.deliver o (Next r) c).
    + exists [(o, Next r)]; split; [reflexivity|].
      constructor; [left; reflexivity | constructor].
    + replace (isClosed o (Rx.deliver o (Next r) c)) with false by (symmetry; exact E).
      apply terminal_appended; right; reflexivity.
Qed.

Lemma resume_appended (s : Settlement) (c : Call) :
  appended (outcomeOf (fst (settlementValues s)) (snd (settlementValues s)))
           c (resume s c).
Proof.
  rewrite resume_unfold; cbv zeta.
  set (r := fst (settlementValues s)); set (e := snd (settlementValues s)).
  assert (H : appended (outcomeOf r e) c (forEach (notify r e) c)).
  { unfold forEach.
    apply (forEachFrom_invariant (appended (outcomeOf r e) c));
      [|apply appended_refl].
    intros o c' H'; eapply appended_trans; [exact H' | apply notify_appended]. }
  exact H.
Qed.

(** In a state the facade does not reach (three subscribers registered
    when the host settles), [forEach] walks the array while every
    [complete] takes its subscriber out of it: the entry at index 1 moves
    to index 0 and is passed over. *)
Example forEach_over_the_live_array :
  received (resume (Resolves (VStr "a1")) (mkCall [] [0; 1; 2] [] [] Pending 3))
  = [(0, Next (VStr "a1")); (0, Complete); (2, Next (VStr "a1")); (2, Complete)]
  /\ observers (resume (Resolves (VStr "a1")) (mkCall [] [0; 1; 2] [] [] Pending 3))
     = [1].
Proof. split; reflexivity. Qed.

(** ** Two runs that differ by one unsubscription *)





(** * The claims *)

(** C1 (the code departs from it): a mutating method is an [async] function
    that awaits the host mutation before [return obs].  The call hands its
    caller a pending promise, not the stream: subscribing is not yet
    possible, the stream is what the promise is fulfilled with when the host
    settles, and every run that ends with the stream in the caller's hands
    began with that settlement. *)
Theorem stream_withheld_until_settlement (this : Collection) (op : Mutation) :
  ret (invoke this op) = Pending
  /\ step (invoke this op) Subscribes = None
  /\ (forall s : Settlement,
        step (invoke this op) (HostSettles s) = Some (resume s (invoke this op))
        /\ ret (resume s (invoke this op)) = Fulfilled CreatedObservable)
  /\ forall events c obs,
       run (invoke this op) events = Some c -> ret c = Fulfilled obs ->
       exists s rest, events = HostSettles s :: rest.
Proof.
  split; [|split; [|split]].
  - destruct (invoke_suspended this op) as (m & args & ->); reflexivity.
  - destruct (invoke_suspended this op) as (m & args & ->); reflexivity.
  - destruct (invoke_suspended this op) as (m & args & ->).
    intros s; split; destruct s; reflexivity.
  - intros events c obs; apply run_fulfilled_settled.
Qed.

(** C3: when the host mutation rejects with [e], the settlement is accepted
    once and fulfils the promise of the call with the stream (the promise is
    never rejected); no subscriber is registered at that moment, nothing is
    delivered, and the call keeps no trace of [e] (its state is the one a
    success would have left).  The only notification that ever carries the
    rejection is [Error e]; for an error object that is so whatever the
    array holds at settlement. *)
Theorem rejection_captured_and_discarded
        (this : Collection) (op : Mutation) (e : Value) :
  step (invoke this op) (HostSettles (Rejects e))
    = Some (resume (Rejects e) (invoke this op))
  /\ ret (resume (Rejects e) (invoke this op)) = Fulfilled CreatedObservable
  /\ (forall s, step (resume (Rejects e) (invoke this op)) (HostSettles s) = None)
  /\ observers (invoke this op) = []
  /\ received (resume (Rejects e) (invoke this op)) = []
  /\ resume (Rejects e) (invoke this op) = resume (Resolves VUndefined) (invoke this op)
  /\ (forall events c,
        run (invoke this op) (HostSettles (Rejects e) :: events) = Some c ->
        (forall e', ret c <> Rejected e')
        /\ forall o n, In (o, n) (received c) -> n = Error e)
  /\ forall c : Call,
       truthy e = true ->
       ret (resume (Rejects e) c) = Fulfilled CreatedObservable
       /\ appended (fun n => n = Error e) c (resume (Rejects e) c).
Proof.
  destruct (invoke_suspended this op) as (m & args & Hi).
  repeat split; try (rewrite Hi; reflexivity).
  - eapply reached_kept, run_Reached; [apply invoke_Reached | eassumption].
  - intros o n Hin; rewrite (run_quiet _ _ _ H) in Hin; destruct Hin.
  - pose proof (resume_appended (Rejects e) c) as Ha.
    simpl in Ha; unfold outcomeOf in Ha; rewrite H in Ha; exact Ha.
Qed.

(** C5: once a mutating call has settled (its promise is fulfilled),
    subscribing is accepted and registers the new subscriber, none of its
    callbacks is ever invoked afterwards (no notification at all is
    delivered any more), and its unsubscribe function is accepted too and
    only takes the entry back out: array, notifications, promise and host
    calls are as they were before the subscription. *)
Theorem late_subscription_is_silent
        (this : Collection) (op : Mutation) (events : list Event)
        (c : Call) (obs : Observable) :
  run (invoke this op) events = Some c ->
  ret c = Fulfilled obs ->
  step c Subscribes = Some (subscribe obs c)
  /\ In (fresh c) (observers (subscribe obs c))
  /\ (forall later c',
        run (subscribe obs c) later = Some c' ->
        receivedBy (fresh c) c' = [] /\ received c' = received c)
  /\ step (subscribe obs c) (Unsubscribes (fresh c))
     = Some (Rx.unsubscribe (fresh c) (subscribe obs c))
  /\ observers (Rx.unsubscribe (fresh c) (subscribe obs c)) = observers c
  /\ received (Rx.unsubscribe (fresh c) (subscribe obs c)) = received c
  /\ ret (Rx.unsubscribe (fresh c) (subscribe obs c)) = ret c
  /\ hostCalls (Rx.unsubscribe (fresh c) (subscribe obs c)) = hostCalls c.
Proof.
  intros Hrun Hret.
  pose proof (run_Reached events (invoke_Reached this op) Hrun) as Hc.
  assert (Hstep : step c Subscribes = Some (subscribe obs c))
    by (simpl; rewrite Hret; reflexivity).
  destruct (below_fresh_absent (reached_observers Hc)) as [Hnew _].
  destruct (below_fresh_absent (reached_closed Hc)) as [_ Hopen].
  assert (Hun : Rx.unsubscribe (fresh c) (subscribe obs c)
                = mkCall (hostCalls c) (observers c) (fresh c :: closed c)
                         (received c) (ret c) (S (fresh c))).
  { unfold Rx.unsubscribe, isClosed; simpl; rewrite Hopen.
    unfold Rx.teardown; simpl; rewrite (@removeObserver_pushed _ _ Hnew); reflexivity. }
  split; [exact Hstep|]; split; [simpl; apply in_or_app; right; left; reflexivity|].
  split; [|split]; [| |rewrite Hun; repeat split].
  - intros later c' Hlater.
    assert (H : run (invoke this op) (events ++ Subscribes :: later) = Some c').
    { rewrite run_app, Hrun; simpl; rewrite Hret; exact Hlater. }
    unfold receivedBy; rewrite (run_quiet _ _ _ H), (reached_quiet Hc); split; reflexivity.
  - unfold step; replace (fresh (subscribe obs c)) with (S (fresh c)) by reflexivity.
    rewrite (proj2 (Nat.ltb_lt (fresh c) (S (fresh c)))) by lia; reflexivity.
Qed.

Lemma late_subscription_is_silent_witness :
  step (resume (Resolves (VStr "a1")) (insert tasks (VObj []))) Subscribes
  = Some (subscribe CreatedObservable
            (resume (Resolves (VStr "a1")) (insert tasks (VObj [])))).
Proof.
  exact (proj1 (late_subscription_is_silent tasks (Insert (VObj []))
                  [HostSettles (Resolves (VStr "a1"))] eq_refl eq_refl)).
Defined.

(** C6: once a subscriber has been unsubscribed, none of its callbacks is
    invoked by anything that happens afterwards, the settlement of the
    mutation included; and the unsubscription changes neither the host
    calls made nor the promise of the call, so the mutation settles as it
    would have. *)
Theorem unsubscribed_subscriber_is_never_notified
        (c c1 : Call) (o : Subscriber) :
  step c (Unsubscribes o) = Some c1 ->
  hostCalls c1 = hostCalls c
  /\ ret c1 = ret c
  /\ receivedBy o c1 = receivedBy o c
  /\ (forall s, step c1 (HostSettles s) = None <-> step c (HostSettles s) = None)
  /\ forall events c',
       run c1 events = Some c' ->
       receivedBy o c' = receivedBy o c /\ hostCalls c' = hostCalls c.
Proof.
  simpl; destruct (Nat.ltb o (fresh c)); [|discriminate]; intros [= <-].
  destruct (unsubscribe_same o c) as (Hh & Hr & _).
  destruct (unsubscribe_closes o c) as [Hc Hrec].
  assert (Hby : receivedBy o (Rx.unsubscribe o c) = receivedBy o c)
    by (unfold receivedBy; rewrite Hrec; reflexivity).
  repeat split; try assumption.
  - simpl; rewrite Hr; destruct (ret c); congruence.
  - simpl; rewrite Hr; destruct (ret c); congruence.
  - destruct (@run_muted o events _ _ Hc H) as [[_ Hm] _]; congruence.
  - destruct (@run_muted o events _ _ Hc H) as [_ Hm]; congruence.
Qed.

Lemma unsubscribed_subscriber_is_never_notified_witness :
  hostCalls (Rx.unsubscribe 0 (subscribe CreatedObservable
               (resume (Resolves (VNum 1)) (remove tasks (VObj [])))))
  = hostCalls (subscribe CreatedObservable
                 (resume (Resolves (VNum 1)) (remove tasks (VObj [])))).
Proof.
  exact (proj1 (unsubscribed_subscriber_is_never_notified
                  (subscribe CreatedObservable
                     (resume (Resolves (VNum 1)) (remove tasks (VObj []))))
                  0 eq_refl)).
Defined.

(** C7 (the code departs from it): [findOne] returns what the host's
    [findOneAsync] returns, a promise of the first matching document (or of
    [undefined]); it is never that document, or [undefined], itself. *)
Theorem findOne_returns_the_deferred_result (this : Collection) (args : list Value) :
  findOne this args
  = VPromise (Resolves (Mongo.firstOrUndefined (_collection this) args))
  /\ findOne this args <> Mongo.firstOrUndefined (_collection this) args.
Proof.
  split; [reflexivity|].
  unfold findOne, Mongo.findOneAsync, Mongo.firstOrUndefined.
  destruct (Mongo.firstMatch (_collection this) args); discriminate.
Qed.

Example findOne_of_a_stored_task :
  findOne {| _collection := taskStore |} [VObj []]
  = VPromise (Resolves (VObj oneTask)).
Proof. reflexivity. Qed.

(** C9: each [...Async] name of the facade is the method it is initialised
    from, so the two agree on every input. *)
Theorem async_names_are_the_same_methods
        (this : Collection) (doc selector modifier options : Value)
        (args : list Value) :
  insertAsync this doc = insert this doc
  /\ removeAsync this selector = remove this selector
  /\ updateAsync this selector modifier options
     = update this selector modifier options
  /\ upsertAsync this selector modifier options
     = upsert this selector modifier options
  /\ findAsync this args = find this args
  /\ findOneAsync this args = findOne this args.
Proof. repeat split. Qed.

(** * Further properties of the code *)

(** ** The host is called once *)

Lemma run_hostCalls (events : list Event) :
  forall c c', run c events = Some c' -> hostCalls c' = hostCalls c.
Proof.
  induction events as [|e events IH]; simpl; intros c c' Hrun.
  - injection Hrun as <-; reflexivity.
  - destruct (step c e) as [c1|] eqn:E; [|discriminate].
    rewrite (IH c1 c' Hrun); apply (step_sameHost c e E).
Qed.

(** X1: a mutating call invokes one host method, once, on the wrapped
    collection, and nothing that happens afterwards (settlement,
    subscriptions, unsubscriptions) invokes the host again: there is no
    retry and no second mutation. *)
Theorem host_mutation_launched_once
        (this : Collection) (op : Mutation) (events : list Event) (c : Call) :
  run (invoke this op) events = Some c ->
  hostCalls c = hostCalls (invoke this op)
  /\ exists m args,
       hostCalls c = [Build_HostCall (_collection this) m args].
Proof.
  intros Hrun; rewrite (run_hostCalls events _ Hrun); split; [reflexivity|].
  destruct (invoke_suspended this op) as (m & args & ->); exists m, args; reflexivity.
Qed.

Lemma host_mutation_launched_once_witness :
  hostCalls (subscribe CreatedObservable
               (resume (Rejects (VStr "denied")) (update tasks (VObj []) (VObj []) VUndefined)))
  = hostCalls (update tasks (VObj []) (VObj []) VUndefined).
Proof.
  exact (proj1 (@host_mutation_launched_once tasks
                  (Update (VObj []) (VObj []) VUndefined)
                  [HostSettles (Rejects (VStr "denied")); Subscribes] _ eq_refl)).
Defined.

(** ** A rejection with a falsy value *)

Lemma forEachFrom_ext (f g : Subscriber -> Call -> Call) :
  (forall o c, f o c = g o c) ->
  forall n k c, forEachFrom n k f c = forEachFrom n k g c.
Proof.
  intros H n; induction n as [|n IH]; intros k c; simpl; [reflexivity|].
  destruct (nth_error (observers c) k); [rewrite H|]; apply IH.
Qed.

(** X2: the settlement tells failure from success by the truthiness of the
    caught value ([error ? ... : ...]).  A host rejection with a falsy
    value ([undefined], [null], [0], the empty string, [false]) is
    therefore handled, whatever the array holds, exactly as a resolution
    with [undefined]. *)
Theorem falsy_rejection_is_taken_for_success (e : Value) (c : Call) :
  truthy e = false ->
  resume (Rejects e) c = resume (Resolves VUndefined) c.
Proof.
  intros H; rewrite !resume_unfold; cbv zeta; simpl.
  assert (Hf : forEach (notify VUndefined e) c = forEach (notify VUndefined VUndefined) c).
  { unfold forEach; apply forEachFrom_ext; intros o c'.
    unfold notify; rewrite H; reflexivity. }
  rewrite Hf; reflexivity.
Qed.

Lemma falsy_rejection_is_taken_for_success_witness :
  resume (Rejects (VNum 0)) (remove tasks (VStr "a1"))
  = resume (Resolves VUndefined) (remove tasks (VStr "a1")).
Proof.
  exact (@falsy_rejection_is_taken_for_success (VNum 0)
           (remove tasks (VStr "a1")) eq_refl).
Defined.

(** ** One settlement, one subscriber *)

Lemma forEachFrom_invariant_in (P : Call -> Prop) (f : Subscriber -> Call -> Call) :
  (forall o c, P c -> In o (observers c) -> P (f o c)) ->
  forall n k c, P c -> P (forEachFrom n k f c).
Proof.
  intros Hf n; induction n as [|n IH]; intros k c Hc; simpl; [exact Hc|].
  apply IH; destruct (nth_error (observers c) k) eqn:E; [|exact Hc].
  apply Hf; [exact Hc | eapply nth_error_In; exact E].
Qed.

Lemma removeObserver_incl (l : list Subscriber) (o : Subscriber) :
  incl (removeObserver l o) l.
Proof.
  induction l as [|x l IH]; simpl; [apply incl_refl|].
  destruct (Nat.eqb x o); [apply incl_tl, incl_refl|].
  apply incl_cons; [left; reflexivity | apply incl_tl, IH].
Qed.

Lemma unsubscribe_effect (o' : Subscriber) (c : Call) :
  received (Rx.unsubscribe o' c) = received c
  /\ incl (observers (Rx.unsubscribe o' c)) (observers c)
  /\ forall o, isClosed o (Rx.unsubscribe o' c)
               = if isClosed o' c then isClosed o c
                 else Nat.eqb o o' || isClosed o c.
Proof.
  unfold Rx.unsubscribe; destruct (isClosed o' c) eqn:E.
  - split; [|split]; [reflexivity | apply incl_refl | intros o; reflexivity].
  - split; [|split]; [reflexivity | apply removeObserver_incl | intros o; reflexivity].
Qed.

Lemma notify_closed (r e : Value) (o : Subscriber) (c : Call) :
  isClosed o c = true -> notify r e o c = c.
Proof.
  intros H; unfold notify, Rx.error, Rx.next, Rx.complete.
  destruct (truthy e); rewrite !H; reflexivity.
Qed.

(** What [notify] does to the subscriber it is run on, if still open. *)
Lemma notify_open (r e : Value) (o : Subscriber) (c : Call) :
  isClosed o c = false ->
  receivedBy o (notify r e o c) = receivedBy o c ++ outcome r e
  /\ isClosed o (notify r e o c) = true
  /\ incl (observers (notify r e o c)) (observers c).
Proof.
  intros H; unfold notify, outcome, Rx.error, Rx.next, Rx.complete.
  destruct (truthy e); rewrite H.
  - destruct (unsubscribe_effect o (Rx.deliver o (Error e) c)) as (Hr & Hi & Hc).
    assert (Hcl : isClosed o (Rx.unsubscribe o (Rx.deliver o (Error e) c)) = true)
      by apply unsubscribe_closes.
    rewrite Hcl; split; [|split; [exact Hcl | exact Hi]].
    unfold receivedBy; rewrite Hr; fold (receivedBy o (Rx.deliver o (Error e) c)).
    rewrite receivedBy_deliver, Nat.eqb_refl; reflexivity.
  - replace (isClosed o (Rx.deliver o (Next r) c)) with false by (symmetry; exact H).
    set (c1 := Rx.deliver o (Next r) c).
    destruct (unsubscribe_effect o (Rx.deliver o Complete c1)) as (Hr & Hi & Hc).
    split; [|split; [apply unsubscribe_closes | exact Hi]].
    unfold receivedBy; rewrite Hr; fold (receivedBy o (Rx.deliver o Complete c1)).
    rewrite receivedBy_deliver, Nat.eqb_refl; unfold c1.
    rewrite receivedBy_deliver, Nat.eqb_refl, <- app_assoc; reflexivity.
Qed.

(** What [notify] run on [o'] does to another subscriber [o]. *)
Lemma notify_other (r e : Value) (o o' : Subscriber) (c : Call) :
  o' <> o ->
  receivedBy o (notify r e o' c) = receivedBy o c
  /\ isClosed o (notify r e o' c) = isClosed o c
  /\ incl (observers (notify r e o' c)) (observers c).
Proof.
  intros Hne.
  assert (Hnb : Nat.eqb o' o = false) by (apply Nat.eqb_neq, Hne).
  assert (Hbn : Nat.eqb o o' = false) by (apply Nat.eqb_neq; auto).
  assert (Hterm : forall n c1,
            let c2 := if isClosed o' c1 then c1
                      else Rx.unsubscribe o' (Rx.deliver o' n c1) in
            receivedBy o c2 = receivedBy o c1
            /\ isClosed o c2 = isClosed o c1
            /\ incl (observers c2) (observers c1)).
  { intros n c1; cbv zeta; destruct (isClosed o' c1) eqn:E.
    - split; [|split]; try reflexivity; apply incl_refl.
    - destruct (unsubscribe_effect o' (Rx.deliver o' n c1)) as (Hr & Hi & Hc).
      split; [|split].
      + unfold receivedBy; rewrite Hr; fold (receivedBy o (Rx.deliver o' n c1)).
        rewrite receivedBy_deliver, Hnb; apply app_nil_r.
      + rewrite Hc.
        replace (isClosed o' (Rx.deliver o' n c1)) with false by (symmetry; exact E).
        rewrite Hbn; reflexivity.
      + exact Hi. }
  unfold notify.
  set (c1 := if truthy e then Rx.error o' e c else Rx.next o' r c).
  assert (H1 : receivedBy o c1 = receivedBy o c
                /\ isClosed o c1 = isClosed o c
                /\ incl (observers c1) (observers c)).
  { unfold c1; destruct (truthy e); [apply (Hterm (Error e) c)|].
    unfold Rx.next; destruct (isClosed o' c) eqn:E.
    - split; [|split]; try reflexivity; apply incl_refl.
    - split; [|split]; [|reflexivity|apply incl_refl].
      rewrite receivedBy_deliver, Hnb; apply app_nil_r. }
  destruct H1 as (Ha & Hb & Hc).
  destruct (Hterm Complete c1) as (Ha' & Hb' & Hc').
  unfold Rx.complete; split; [|split].
  - rewrite Ha'; exact Ha.
  - rewrite Hb'; exact Hb.
  - eapply incl_tran; eassumption.
Qed.

(** X3: whatever the array holds when the host settles, a subscriber is
    either left alone or, if it is registered and still open, handed the
    whole outcome once: [next(result)] immediately followed by [complete],
    or [error(e)] alone; it is closed afterwards.  No subscriber is handed
    half an outcome, an outcome twice, or both kinds. *)
Theorem settlement_notifies_at_most_once (s : Settlement) (c : Call) (o : Subscriber) :
  (receivedBy o (resume s c) = receivedBy o c
   /\ isClosed o (resume s c) = isClosed o c)
  \/ (isClosed o c = false
      /\ In o (observers c)
      /\ receivedBy o (resume s c)
         = receivedBy o c
           ++ outcome (fst (settlementValues s)) (snd (settlementValues s))
      /\ isClosed o (resume s c) = true).
Proof.
  rewrite resume_unfold; cbv zeta.
  set (r := fst (settlementValues s)); set (e := snd (settlementValues s)).
  set (J := fun c' : Call =>
    incl (observers c') (observers c)
    /\ ((receivedBy o c' = receivedBy o c /\ isClosed o c' = isClosed o c)
        \/ (isClosed o c = false /\ In o (observers c)
            /\ receivedBy o c' = receivedBy o c ++ outcome r e
            /\ isClosed o c' = true))).
  assert (HJ : J (forEach (notify r e) c)).
  { unfold forEach; apply forEachFrom_invariant_in.
    - intros o' c' HJ Hin; pose proof HJ as [Hincl Hcase].
      destruct (Nat.eq_dec o' o) as [->|Hne].
      + destruct (isClosed o c') eqn:E.
        * rewrite (notify_closed r e o c' E); exact HJ.
        * destruct (notify_open r e o c' E) as (Hr & Hc & Hi).
          split; [eapply incl_tran; eassumption|].
          destruct Hcase as [[Ha Hb]|(_ & _ & _ & Hb)]; [|congruence].
          right; split; [|split; [|split]];
            [congruence | apply Hincl, Hin | congruence | exact Hc].
      + destruct (notify_other r e c' Hne) as (Hr & Hc & Hi).
        split; [eapply incl_tran; eassumption|].
        rewrite Hr, Hc; exact Hcase.
    - split; [apply incl_refl | left; split; reflexivity]. }
  destruct HJ as [_ Hcase]; exact Hcase.
Qed.

(** ** Subscribing in a row *)

Lemma run_subscribes (k : nat) :
  forall c obs,
    ret c = Fulfilled obs ->
    run c (repeat Subscribes k)
    = Some (mkCall (hostCalls c) (observers c ++ seq (fresh c) k) (closed c)
                   (received c) (ret c) (fresh c + k)).
Proof.
  induction k as [|k IH]; intros c obs Hret; simpl.
  - rewrite app_nil_r, Nat.add_0_r; destruct c; reflexivity.
  - rewrite Hret.
    rewrite (IH (subscribe obs c) obs Hret); simpl.
    rewrite <- app_assoc, Hret, Nat.add_succ_r; reflexivity.
Qed.

(** X4: once the stream is out, subscribers are registered in the order in
    which they subscribe: after the settlement and [k] subscriptions the
    array is the [k] subscribers in subscription order, none of them
    closed, and none of them has been notified of anything. *)
Theorem subscribers_registered_in_order
        (this : Collection) (op : Mutation) (s : Settlement) (k : nat) :
  exists c,
    run (invoke this op) (HostSettles s :: repeat Subscribes k) = Some c
    /\ observers c = seq 0 k
    /\ closed c = []
    /\ received c = []
    /\ fresh c = k.
Proof.
  destruct (invoke_suspended this op) as (m & args & Hi).
  assert (Hstep : step (invoke this op) (HostSettles s)
                  = Some (resume s (invoke this op)))
    by (rewrite Hi; reflexivity).
  assert (Hres : resume s (invoke this op)
                 = mkCall (hostCalls (invoke this op)) [] [] []
                          (Fulfilled CreatedObservable) 0)
    by (rewrite Hi; destruct s; reflexivity).
  eexists; split.
  - cbn [run]; rewrite Hstep, Hres.
    apply (@run_subscribes k _ CreatedObservable); reflexivity.
  - repeat split.
Qed.

(** ** Wrapping an existing collection *)

(** X5: a facade constructed over an existing [Mongo.Collection] wraps that
    very collection and ignores [options] (the host's constructor is not
    involved), which is what [fromExisting] builds; [collection] gives the
    collection back, every mutation launched through the facade is invoked
    on it, and [find] and [findOne] query it. *)
Theorem existing_collection_is_wrapped_as_is
        (newCollection : Value -> Value -> Mongo.Collection)
        (existing : Mongo.Collection) (options : Value)
        (op : Mutation) (events : list Event) (c : Call) (args : list Value) :
  run (invoke (constructor newCollection (Existing existing) options) op) events
  = Some c ->
  constructor newCollection (Existing existing) options
  = fromExisting newCollection existing
  /\ collection (fromExisting newCollection existing) = existing
  /\ Forall (fun h => callee h = existing) (hostCalls c)
  /\ find (constructor newCollection (Existing existing) options) args
     = ObservableCursor_create (Mongo.find existing args)
  /\ findOne (constructor newCollection (Existing existing) options) args
     = Mongo.findOneAsync existing args.
Proof.
  intros Hrun; split; [reflexivity|]; split; [reflexivity|].
  split; [|split; reflexivity].
  rewrite (run_hostCalls events _ Hrun).
  destruct (invoke_suspended (constructor newCollection (Existing existing) options) op)
    as (m & a & ->).
  constructor; [reflexivity | constructor].
Qed.

Lemma existing_collection_is_wrapped_as_is_witness :
  constructor (fun _ _ => emptyStore) (Existing taskStore) (VObj [])
  = fromExisting (fun _ _ => emptyStore) taskStore.
Proof.
  exact (proj1 (@existing_collection_is_wrapped_as_is
                  (fun _ _ => emptyStore) taskStore (VObj [])
                  (Insert (VObj [])) [HostSettles (Resolves (VStr "a1"))] _
                  [] eq_refl)).
Defined.

(** * The settlement over a registered array *)

(** ** What [notify] does to an open subscriber, in full *)


(** ** Indices of the live array *)






(** ** The pass of [forEach] over the array *)






(** ** The claims about delivery at settlement *)












